(** * gmusicapi web-client calls: response checks and request builders

    A shallow embedding of [gmusicapi/newprotocol/webclient.py] and
    [gmusicapi/exceptions.py].  Decoded JSON responses and request payloads
    are Python values; the class-level operations of [WcCall] and of its
    concrete subclasses become functions over them.  Raising an exception
    is a [Raise] result. *)

From Stdlib Require Import ZArith String Ascii.
From stdpp Require Import gmap strings list fin_maps pretty.

Set Warnings "-register-all".
Local Open Scope string_scope.
Local Open Scope Z_scope.

(** ** Python values

    What [json.loads] produces and [json.dumps] accepts: [None], booleans,
    integers, strings, lists and dicts with string keys.  A dict is a finite
    map, so two dicts holding the same items are the same value.  Python
    floats are not part of the model. *)

Inductive json : Type :=
| JNull
| JBool (b : bool)
| JInt (z : Z)
| JStr (s : string)
| JArr (l : list json)
| JObj (d : gmap string json).

(** [bool(v)]: the truth value Python gives to [v] in [not v] and [if v]. *)
Definition truthy (v : json) : bool :=
  match v with
  | JNull => false
  | JBool b => b
  | JInt z => negb (z =? 0)
  | JStr s => negb (String.length s =? 0)%nat
  | JArr l => negb (length l =? 0)%nat
  | JObj d => negb (size d =? 0)%nat
  end.

(** [a == b].  A boolean compares as the integer 0 or 1 ([False == 0] and
    [True == 1] hold in Python); lists compare element by element, dicts by
    their key sets and the values under each key.  Floats, which Python
    also compares with integers by value ([0.0 == 0]), are not among the
    values. *)
Fixpoint py_eq (a b : json) : bool :=
  match a, b with
  | JNull, JNull => true
  | JBool x, JBool y => Bool.eqb x y
  | JBool x, JInt y => Z.b2z x =? y
  | JInt x, JBool y => x =? Z.b2z y
  | JInt x, JInt y => x =? y
  | JStr x, JStr y => String.eqb x y
  | JArr l, JArr l' =>
      (fix go (l l' : list json) : bool :=
         match l, l' with
         | [], [] => true
         | x :: l, y :: l' => py_eq x y && go l l'
         | _, _ => false
         end) l l'
  | JObj d, JObj d' =>
      (size d =? size d')%nat &&
      map_fold (fun k v acc =>
                  match d' !! k with
                  | Some v' => py_eq v v'
                  | None => false
                  end && acc) true d
  | _, _ => false
  end.

(** [repr(v)] as used by the [%r] conversion.  Exact on [None], booleans,
    machine-size integers and lists of these; a string is shown as a plain
    quoted literal. *)
Fixpoint py_repr (v : json) : string :=
  match v with
  | JNull => "None"
  | JBool true => "True"
  | JBool false => "False"
  | JInt z => pretty z
  | JStr s => "'" +:+ s +:+ "'"
  | JArr l =>
      "[" +:+
      (fix go (l : list json) : string :=
         match l with
         | [] => ""
         | [x] => py_repr x
         | x :: l => py_repr x +:+ ", " +:+ go l
         end) l +:+ "]"
  | JObj d =>
      "{" +:+
      map_fold (fun k v acc =>
                  ("'" +:+ k +:+ "': " +:+ py_repr v) +:+
                  (if (String.length acc =? 0)%nat then "" else ", " +:+ acc))
               "" d +:+ "}"
  end.

(** ** Exceptions ([gmusicapi/exceptions.py]) and results *)

Inductive exn : Type :=
| CallFailure (message callname : string)
| ParseException (message : string)
| ValidationException (message : string)
| ValueError (message : string)
| TypeError
| KeyError (key : string).

(** [CallFailure.__str__]: ["%s: %s" % (self.callname, Exception.__str__(self))]. *)
Definition CallFailure_str (message callname : string) : string :=
  callname +:+ ": " +:+ message.

Inductive result (A : Type) : Type :=
| Return (a : A)
| Raise (e : exn).
Arguments Return {A} a.
Arguments Raise {A} e.

(** ** The call classes of [webclient.py] *)

Inductive wc_call : Type :=
| WcCall
| AddPlaylist
| AddToPlaylist
| ChangePlaylistName
| ChangePlaylistOrder
| DeletePlaylist
| DeleteSongs
| GetLibrarySongs
| ReportBadSongMatch.

(** [cls.__name__] *)
Definition class_name (cls : wc_call) : string :=
  match cls with
  | WcCall => "WcCall"
  | AddPlaylist => "AddPlaylist"
  | AddToPlaylist => "AddToPlaylist"
  | ChangePlaylistName => "ChangePlaylistName"
  | ChangePlaylistOrder => "ChangePlaylistOrder"
  | DeletePlaylist => "DeletePlaylist"
  | DeleteSongs => "DeleteSongs"
  | GetLibrarySongs => "GetLibrarySongs"
  | ReportBadSongMatch => "ReportBadSongMatch"
  end.

(** The message of the [CallFailure] raised by [check_success]: four
    adjacent string literals, joined by Python as they stand. *)
Definition failure_message : string :=
  "the server reported failure. This is usually" +:+
  "caused by bad arguments, but can also happen if requests" +:+
  "are made too quickly (eg creating a playlist then" +:+
  "modifying it before the server has created it)".

(** ['success' in res]: key membership for a dict, element membership (by
    [==]) for a list, substring search for a string; other values are not
    iterable. *)
Definition contains_success (res : json) : result bool :=
  match res with
  | JObj d => Return (bool_decide (is_Some (d !! "success")))
  | JArr l => Return (existsb (fun x => py_eq (JStr "success") x) l)
  | JStr s =>
      Return (match String.index 0 "success" s with
              | Some _ => true
              | None => false
              end)
  | _ => Raise TypeError
  end.

(** [res['success']]: only a dict can be indexed by a string. *)
Definition get_success (res : json) : result json :=
  match res with
  | JObj d =>
      match d !! "success" with
      | Some v => Return v
      | None => Raise (KeyError "success")
      end
  | _ => Raise TypeError
  end.

(** [WcCall.check_success]:
    [if 'success' in res and not res['success']: raise CallFailure(..., cls.__name__)] *)
Definition check_success (cls : wc_call) (res : json) : result unit :=
  match contains_success res with
  | Raise e => Raise e
  | Return false => Return tt
  | Return true =>
      match get_success res with
      | Raise e => Raise e
      | Return v =>
          if negb (truthy v)
          then Raise (CallFailure failure_message (class_name cls))
          else Return tt
      end
  end.

(** [v.get(k)] on a dict; [None] on a value that is not a dict. *)
Definition json_get (k : string) (v : json) : option json :=
  match v with
  | JObj d => d !! k
  | _ => None
  end.

(** ** Serialisation

    The request builders hand a value to [json.dumps] and send the text it
    returns.  The builders are stated over any encoder; [py_json_dumps]
    below is the encoder with Python's default settings. *)

Class JsonEncoder := json_dumps : json -> string.

Definition join (sep : string) (l : list string) : string :=
  foldr (fun s acc =>
           if (String.length acc =? 0)%nat then s else s +:+ sep +:+ acc) "" l.

Definition dquote : ascii := ascii_of_nat 34.
Definition backslash : ascii := ascii_of_nat 92.

Definition hex_digit (n : N) : ascii :=
  match String.get (N.to_nat n) "0123456789abcdef" with
  | Some c => c
  | None => "0"%char
  end.

(** One character of a string as [json.dumps] writes it with
    [ensure_ascii=True]: the short escapes of the encoder's table, [\u00XX]
    for every other character outside [' '..'~']. *)
Definition escape_char (c : ascii) : string :=
  let n := N_of_ascii c in
  if (n =? 34)%N then String backslash (String dquote "")
  else if (n =? 92)%N then String backslash (String backslash "")
  else if (n =? 8)%N then String backslash "b"
  else if (n =? 12)%N then String backslash "f"
  else if (n =? 10)%N then String backslash "n"
  else if (n =? 13)%N then String backslash "r"
  else if (n =? 9)%N then String backslash "t"
  else if ((32 <=? n) && (n <=? 126))%N then String c ""
  else String backslash
         ("u00" +:+ String (hex_digit (n / 16)) (String (hex_digit (n mod 16)) "")).

Fixpoint escape_string (s : string) : string :=
  match s with
  | EmptyString => ""
  | String c s => escape_char c +:+ escape_string s
  end.

Definition quote_string (s : string) : string :=
  String dquote (escape_string s +:+ String dquote "").

(** [json.dumps(v)] with the default separators [", "] and [": "].  The
    items of a dict are written in the enumeration order of the map; CPython
    writes them in the iteration order of its hash table. *)
Fixpoint py_json_dumps (v : json) : string :=
  match v with
  | JNull => "null"
  | JBool true => "true"
  | JBool false => "false"
  | JInt z => pretty z
  | JStr s => quote_string s
  | JArr l =>
      "[" +:+
      join ", " ((fix go (l : list json) : list string :=
                    match l with
                    | [] => []
                    | x :: l => py_json_dumps x :: go l
                    end) l) +:+ "]"
  | JObj d =>
      "{" +:+
      join ", " (map_fold (fun k v acc =>
                             (quote_string k +:+ ": " +:+ py_json_dumps v) :: acc)
                          [] d) +:+ "}"
  end.

#[local] Instance py_encoder : JsonEncoder := py_json_dumps.

(** ** Request builders ([dynamic_data])

    A parameter with a default value is an [option]: [None] when the caller
    omits it.  Python's [None] itself is the value [JNull]. *)

Definition is_None (v : json) : bool :=
  match v with
  | JNull => true
  | _ => false
  end.

(** [for x in v]: the elements of a list, the characters of a string, the
    keys of a dict; other values are not iterable. *)
Definition iterate (v : json) : result (list json) :=
  match v with
  | JArr l => Return l
  | JStr s => Return ((fun c => JStr (String c "")) <$> list_ascii_of_string s)
  | JObj d => Return ((fun kv => JStr kv.1) <$> map_to_list d)
  | _ => Raise TypeError
  end.

Section Builders.
Context `{!JsonEncoder}.

(** The payload [{'json': json.dumps(req)}]. *)
Definition json_payload (req : json) : json :=
  JObj {[ "json" := JStr (json_dumps req) ]}.

(** [AddPlaylist.dynamic_data(title)] *)
Definition AddPlaylist_dynamic_data (title : json) : json :=
  json_payload (JObj {[ "title" := title ]}).

(** [AddToPlaylist.dynamic_data(playlist_id, song_ids)] *)
Definition AddToPlaylist_dynamic_data (playlist_id song_ids : json)
  : result json :=
  match iterate song_ids with
  | Raise e => Raise e
  | Return sids =>
      let song_refs :=
        (fun sid => JObj {[ "id" := sid; "type" := JInt 1 ]}) <$> sids in
      Return (json_payload
                (JObj {[ "playlistId" := playlist_id;
                         "songRefs" := JArr song_refs ]}))
  end.

(** [ChangePlaylistName.dynamic_data(playlist_id, new_name)] *)
Definition ChangePlaylistName_dynamic_data (playlist_id new_name : json)
  : json :=
  json_payload (JObj {[ "playlistId" := playlist_id;
                        "playlistName" := new_name ]}).

(** The dict [ChangePlaylistOrder.dynamic_data] serialises, after the two
    anchors have been given their values. *)
Definition ChangePlaylistOrder_request
    (playlist_id song_ids_moving entry_ids_moving
     after_entry_id before_entry_id : json) : json :=
  JObj {[ "playlistId" := playlist_id;
          "movedSongIds" := song_ids_moving;
          "movedEntryIds" := entry_ids_moving;
          "afterEntryId" := after_entry_id;
          "beforeEntryId" := before_entry_id ]}.

(** [ChangePlaylistOrder.dynamic_data(playlist_id, song_ids_moving,
    entry_ids_moving, after_entry_id=None, before_entry_id=None)] *)
Definition ChangePlaylistOrder_dynamic_data
    (playlist_id song_ids_moving entry_ids_moving : json)
    (after_entry_id before_entry_id : option json) : json :=
  let after_entry_id := default JNull after_entry_id in
  let before_entry_id := default JNull before_entry_id in
  (* empty string means first/last position *)
  let after_entry_id :=
    if is_None after_entry_id then JStr "" else after_entry_id in
  let before_entry_id :=
    if is_None before_entry_id then JStr "" else before_entry_id in
  json_payload
    (ChangePlaylistOrder_request playlist_id song_ids_moving
       entry_ids_moving after_entry_id before_entry_id).

(** [DeletePlaylist.dynamic_data(playlist_id)] *)
Definition DeletePlaylist_dynamic_data (playlist_id : json) : json :=
  json_payload (JObj {[ "id" := playlist_id ]}).

(** [DeleteSongs.dynamic_data(song_ids, playlist_id='all', entry_ids=None)] *)
Definition DeleteSongs_dynamic_data (song_ids : json)
    (playlist_id entry_ids : option json) : json :=
  let playlist_id := default (JStr "all") playlist_id in
  let entry_ids := default JNull entry_ids in
  json_payload (JObj {[ "songIds" := song_ids;
                        "entryIds" := entry_ids;
                        "listId" := playlist_id ]}).

(** [GetLibrarySongs.dynamic_data(cont_token=None)] *)
Definition GetLibrarySongs_dynamic_data (cont_token : option json) : json :=
  let cont_token := default JNull cont_token in
  let req :=
    if negb (truthy cont_token)
    then JObj ∅
    else JObj {[ "continuationToken" := cont_token ]} in
  json_payload req.

(** [ReportBadSongMatch.dynamic_data(song_ids)]: the bare text, not wrapped
    in a dict. *)
Definition ReportBadSongMatch_dynamic_data (song_ids : json) : json :=
  JStr (json_dumps (JArr [JArr [JStr ""; JInt 1]; JArr [song_ids]])).

End Builders.

(** The builders as one operation: a class together with the arguments of
    one invocation. *)
Inductive invocation : Type :=
| InvAddPlaylist (title : json)
| InvAddToPlaylist (playlist_id song_ids : json)
| InvChangePlaylistName (playlist_id new_name : json)
| InvChangePlaylistOrder (playlist_id song_ids_moving entry_ids_moving : json)
    (after_entry_id before_entry_id : option json)
| InvDeletePlaylist (playlist_id : json)
| InvDeleteSongs (song_ids : json) (playlist_id entry_ids : option json)
| InvGetLibrarySongs (cont_token : option json)
| InvReportBadSongMatch (song_ids : json).

Definition invoked_class (i : invocation) : wc_call :=
  match i with
  | InvAddPlaylist _ => AddPlaylist
  | InvAddToPlaylist _ _ => AddToPlaylist
  | InvChangePlaylistName _ _ => ChangePlaylistName
  | InvChangePlaylistOrder _ _ _ _ _ => ChangePlaylistOrder
  | InvDeletePlaylist _ => DeletePlaylist
  | InvDeleteSongs _ _ _ => DeleteSongs
  | InvGetLibrarySongs _ => GetLibrarySongs
  | InvReportBadSongMatch _ => ReportBadSongMatch
  end.

Definition dynamic_data `{!JsonEncoder} (i : invocation) : result json :=
  match i with
  | InvAddPlaylist title => Return (AddPlaylist_dynamic_data title)
  | InvAddToPlaylist playlist_id song_ids =>
      AddToPlaylist_dynamic_data playlist_id song_ids
  | InvChangePlaylistName playlist_id new_name =>
      Return (ChangePlaylistName_dynamic_data playlist_id new_name)
  | InvChangePlaylistOrder playlist_id sids eids after before =>
      Return (ChangePlaylistOrder_dynamic_data playlist_id sids eids after before)
  | InvDeletePlaylist playlist_id =>
      Return (DeletePlaylist_dynamic_data playlist_id)
  | InvDeleteSongs song_ids playlist_id entry_ids =>
      Return (DeleteSongs_dynamic_data song_ids playlist_id entry_ids)
  | InvGetLibrarySongs cont_token =>
      Return (GetLibrarySongs_dynamic_data cont_token)
  | InvReportBadSongMatch song_ids =>
      Return (ReportBadSongMatch_dynamic_data song_ids)
  end.


(** ** Response validation *)

(** Structural schemas as the classes write them in [_res_schema]: a type
    tag, the item schema of an array, and for an object its declared
    properties (name, [required], nested schema; [required] is [true] unless
    the schema says ["required": False]) with the [additionalProperties]
    flag, [false] when undeclared keys are disallowed.  This is the schema
    format of the specification; the ["blank"] option that
    [ChangePlaylistOrder._res_schema] sets and the dict-valued
    [additionalProperties] of [GetLibrarySongs._res_schema] are not part of
    it. *)
Inductive schema : Type :=
| SString
| SBoolean
| SInteger
| SArray (items : schema)
| SObject (properties : list (string * (bool * schema)))
    (additionalProperties : bool).

(** The type tag of a value. *)
Definition type_name (v : json) : string :=
  match v with
  | JNull => "null"
  | JBool _ => "boolean"
  | JInt _ => "integer"
  | JStr _ => "string"
  | JArr _ => "array"
  | JObj _ => "object"
  end.

(** What a schema mismatch reports: the path of the offending field and
    what was wrong there, the expected and the actual shape. *)
Inductive mismatch : Type :=
| WrongType (expected actual : string)
| MissingProperty
| UndeclaredProperty.

Record failure : Type := Failure { path : list string; reason : mismatch }.

Definition mismatch_str (m : mismatch) : string :=
  match m with
  | WrongType expected actual =>
      "is of type " +:+ actual +:+ ", not of type " +:+ expected
  | MissingProperty => "is missing a required property"
  | UndeclaredProperty => "is not a declared property"
  end.

Definition failure_str (f : failure) : string :=
  join "." ("<obj>" :: path f) +:+ " " +:+ mismatch_str (reason f).

(** The first mismatch that [f] finds among the elements of [l], taken in
    order; [None] when it finds none. *)
Fixpoint first_failure {A} (f : A -> option failure) (l : list A)
  : option failure :=
  match l with
  | [] => None
  | x :: l =>
      match f x with
      | Some e => Some e
      | None => first_failure f l
      end
  end.

(** Modelled from the spec: the Schema Validator (the [validictory] package,
    which [webclient.py] imports and whose code is not in this repository's
    sources).  Section 4.1: for an object schema every declared property is
    present unless optional and every present property matches its declared
    type; under closure a key that is not declared is a failure; every
    element of an array is checked against the one item schema; the first
    mismatch, in declared property order and depth first, is returned.
    [check] gives that first mismatch at path [p], [None] when there is
    none. *)
Fixpoint check (p : list string) (s : schema) (v : json) : option failure :=
  match s, v with
  | SString, JStr _ => None
  | SString, _ => Some (Failure p (WrongType "string" (type_name v)))
  | SBoolean, JBool _ => None
  | SBoolean, _ => Some (Failure p (WrongType "boolean" (type_name v)))
  | SInteger, JInt _ => None
  | SInteger, _ => Some (Failure p (WrongType "integer" (type_name v)))
  | SArray items, JArr l =>
      first_failure (fun ix : nat * json =>
                       check (p ++ [pretty ix.1]) items ix.2)
                    (imap pair l)
  | SArray _, _ => Some (Failure p (WrongType "array" (type_name v)))
  | SObject properties additionalProperties, JObj d =>
      match
        first_failure
          (fun pr : string * (bool * schema) =>
             match pr with
             | (k, (required, s')) =>
                 match d !! k with
                 | Some v' => check (p ++ [k]) s' v'
                 | None =>
                     if required
                     then Some (Failure (p ++ [k]) MissingProperty)
                     else None
                 end
             end)
          properties
      with
      | Some f => Some f
      | None =>
          if additionalProperties then None
          else
            first_failure
              (fun k : string =>
                 if bool_decide (k ∈ properties.*1) then None
                 else Some (Failure (p ++ [k]) UndeclaredProperty))
              (map_to_list d).*1
      end
  | SObject _ _, _ => Some (Failure p (WrongType "object" (type_name v)))
  end.

(** Modelled from the spec: the validator's entry point, with the contract
    [validate(value, schema) -> value | ValidationFailure].  The failure is
    a [ValueError], which is what [WcCall.validate] catches. *)
Definition validictory_validate (res : json) (s : schema) : result json :=
  match check [] s res with
  | None => Return res
  | Some f => Raise (ValueError (failure_str f))
  end.

(** Modelled from the spec: a value conforming to a schema (section 4.1),
    stated on its own terms rather than through the checker.  A string, a
    boolean and an integer conform to their type tags; a list conforms to
    an array schema when each element conforms to the item schema; a dict
    conforms to an object schema when each declared property that is
    present conforms to its schema, each one that is absent is optional,
    and, under closure, every key of the dict is declared. *)
Inductive conforms : schema -> json -> Prop :=
| conforms_string s : conforms SString (JStr s)
| conforms_boolean b : conforms SBoolean (JBool b)
| conforms_integer z : conforms SInteger (JInt z)
| conforms_array items l :
    Forall (conforms items) l ->
    conforms (SArray items) (JArr l)
| conforms_object properties additionalProperties d :
    Forall (fun pr : string * (bool * schema) =>
              (forall v, d !! pr.1 = Some v -> conforms pr.2.2 v) /\
              (d !! pr.1 = None -> pr.2.1 = false))
           properties ->
    (additionalProperties = false ->
     forall k, is_Some (d !! k) -> k ∈ properties.*1) ->
    conforms (SObject properties additionalProperties) (JObj d).

(** [WcCall.validate], for a class whose [_res_schema] is [s]:
    [try: return validictory.validate(res, cls._res_schema)]
    [except ValueError as e: raise ValidationException(str(e))] *)
Definition WcCall_validate (s : schema) (res : json) : result json :=
  match validictory_validate res s with
  | Return v => Return v
  | Raise (ValueError message) => Raise (ValidationException message)
  | Raise e => Raise e
  end.

(** [AddPlaylist._res_schema] *)
Definition AddPlaylist_res_schema : schema :=
  SObject [("id", (true, SString));
           ("title", (true, SString));
           ("success", (true, SBoolean))] false.

(** [AddToPlaylist._res_schema] *)
Definition AddToPlaylist_res_schema : schema :=
  SObject [("playlistId", (true, SString));
           ("songIds",
            (true, SArray (SObject [("songId", (true, SString));
                                    ("playlistEntryId", (true, SString))]
                                   true)))] false.

(** [ChangePlaylistName._res_schema] *)
Definition ChangePlaylistName_res_schema : schema := SObject [] false.

(** [DeletePlaylist._res_schema] *)
Definition DeletePlaylist_res_schema : schema :=
  SObject [("deleteId", (true, SString))] false.

(** [DeleteSongs._res_schema] *)
Definition DeleteSongs_res_schema : schema :=
  SObject [("listId", (true, SString));
           ("deleteIds", (true, SArray SString))] false.

(** [ReportBadSongMatch.expected_response = [[0], []]] *)
Definition expected_response : json := JArr [JArr [JInt 0]; JArr []].

(** [ReportBadSongMatch.validate]:
    [if res != cls.expected_response:]
    [    raise ValidationException("response != %r" % cls.expected_response)]
    It has no [return]: on success the result is [None]. *)
Definition ReportBadSongMatch_validate (res : json) : result json :=
  if negb (py_eq res expected_response)
  then Raise (ValidationException ("response != " +:+ py_repr expected_response))
  else Return JNull.


(** ** Objects in memory

    [GetLibrarySongs.filter_response] copies a dict and assigns into the
    copy.  Whether its argument is affected depends on which dict and list
    objects are shared, so here the containers live in a heap and a value
    refers to them by location. *)

Definition loc : Type := positive.

Inductive val : Type :=
| VNone
| VBool (b : bool)
| VInt (z : Z)
| VStr (s : string)
| VRef (l : loc).

Inductive obj : Type :=
| ODict (items : gmap string val)
| OList (elems : list val).

Abbreviation heap := (gmap loc obj).

(** A computation reads and updates the heap and returns or raises. *)
Definition M (A : Type) : Type := heap -> result A * heap.

Definition ret {A} (a : A) : M A := fun h => (Return a, h).

Definition raise {A} (e : exn) : M A := fun h => (Raise e, h).

Definition bind {A B} (c : M A) (k : A -> M B) : M B :=
  fun h =>
    match c h with
    | (Return a, h') => k a h'
    | (Raise e, h') => (Raise e, h')
    end.

Notation "x <- c1 ;; c2" := (bind c1 (fun x => c2))
  (at level 100, c1 at next level, right associativity).

(** A new object, at a location the heap does not use yet. *)
Definition alloc (o : obj) : M val :=
  fun h => let l := fresh (dom h) in (Return (VRef l), <[l := o]> h).

(** [copy.copy(x)]: a new dict or list holding the same items (the items
    themselves are shared); an immutable value is returned as it is.  A
    location outside the heap is not a Python object; the operations below
    raise on one. *)
Definition copy_copy (x : val) : M val :=
  match x with
  | VRef l =>
      fun h =>
        match h !! l with
        | Some o => alloc o h
        | None => (Raise TypeError, h)
        end
  | _ => ret x
  end.

(** [x[k]] for a string [k]: the item of a dict, [KeyError] when it has
    none; a [TypeError] on every other value. *)
Definition getitem (x : val) (k : string) : M val :=
  match x with
  | VRef l =>
      fun h =>
        match h !! l with
        | Some (ODict items) =>
            match items !! k with
            | Some v => (Return v, h)
            | None => (Raise (KeyError k), h)
            end
        | _ => (Raise TypeError, h)
        end
  | _ => raise TypeError
  end.

(** [x[k] = v] for a string [k]: updates the dict in place; a [TypeError]
    on every other value. *)
Definition setitem (x : val) (k : string) (v : val) : M unit :=
  match x with
  | VRef l =>
      fun h =>
        match h !! l with
        | Some (ODict items) => (Return tt, <[l := ODict (<[k := v]> items)]> h)
        | _ => (Raise TypeError, h)
        end
  | _ => raise TypeError
  end.

(** Modelled from the spec: [utils.truncate(x, max_els)], the helper of
    [gmusicapi.utils] that [filter_response] calls and whose code is not in
    the sources.  Section 4.3: it truncates a large collection, keeping only
    its first entries.  A list longer than [max_els] gives a new list of its
    first [max_els] elements; any other value is returned as it is. *)
Definition utils_truncate (x : val) (max_els : nat) : M val :=
  match x with
  | VRef l =>
      fun h =>
        match h !! l with
        | Some (OList elems) =>
            if (max_els <? length elems)%nat
            then alloc (OList (take max_els elems)) h
            else (Return x, h)
        | _ => (Return x, h)
        end
  | _ => ret x
  end.

(** A computation that leaves every object of the heap it starts from as
    it is: it may only add new ones. *)
Definition preserves_heap {A} (c : M A) : Prop :=
  forall h : heap, h ⊆ (c h).2.

Section FilterResponse.
(** [utils.truncate] *)
Variable truncate : val -> nat -> M val.

(** [GetLibrarySongs.filter_response(msg)]:
    [filtered = copy.copy(msg)]
    [filtered['playlist'] = utils.truncate(msg['playlist'], max_els=2)]
    [return filtered] *)
Definition filter_response (msg : val) : M val :=
  filtered <- copy_copy msg ;;
  playlist <- getitem msg "playlist" ;;
  truncated <- truncate playlist 2 ;;
  _ <- setitem filtered "playlist" truncated ;;
  ret filtered.
End FilterResponse.

(** A response in memory: the dict at location 1 with its three-song
    ['playlist'] list at location 2. *)
Definition sample_heap : heap :=
  {[ 1%positive := ODict {[ "playlist" := VRef 2%positive;
                            "playlistId" := VStr "all" ]};
     2%positive := OList [VStr "song a"; VStr "song b"; VStr "song c"] ]}.


(** ** The other exceptions of [exceptions.py] *)

(** The characters of a string, each as a string of its own: what
    iterating over a string gives. *)
Definition chars (s : string) : list json :=
  (fun c => JStr (String c "")) <$> list_ascii_of_string s.

(** [x += s] for a string [s]: concatenation when [x] is a string; a list
    is extended by the characters of [s]; the other values do not support
    the operation. *)
Definition iadd_str (x : json) (s : string) : result json :=
  match x with
  | JStr m => Return (JStr (m +:+ s))
  | JArr l => Return (JArr (l ++ chars s))
  | _ => Raise TypeError
  end.

(** [NotSubscribed.__init__(self, *args)]; the result is [self.args]:
    [if len(args) >= 1:]
    [    args = list(args); args[0] += " (https://goo.gl/v1wVHT)"; args = tuple(args)]
    [else:]
    [    args = ("Subscription required. (https://goo.gl/v1wVHT)",)] *)
Definition NotSubscribed_init (args : list json) : result (list json) :=
  match args with
  | a0 :: rest =>
      match iadd_str a0 " (https://goo.gl/v1wVHT)" with
      | Return a0' => Return (a0' :: rest)
      | Raise e => Raise e
      end
  | [] => Return [JStr "Subscription required. (https://goo.gl/v1wVHT)"]
  end.

(** The line feed, and the separator ['\n* '] of the id list. *)
Definition newline : string := String (ascii_of_nat 10) "".
Definition bullet : string := newline +:+ "* ".

(** The strings of a list of values; [None] when one of them is not a
    string. *)
Fixpoint strings_of (l : list json) : option (list string) :=
  match l with
  | [] => Some []
  | JStr s :: l =>
      match strings_of l with
      | Some ss => Some (s :: ss)
      | None => None
      end
  | _ :: _ => None
  end.

(** [sep.join(v)]: [v] is iterated and its items must all be strings. *)
Definition str_join (sep : string) (v : json) : result string :=
  match iterate v with
  | Raise e => Raise e
  | Return items =>
      match strings_of items with
      | Some ss => Return (String.concat sep ss)
      | None => Raise TypeError
      end
  end.

(** An [InvalidDeviceId] as built: the one argument handed to
    [Exception.__init__] and the [valid_device_ids] attribute. *)
Record InvalidDeviceId : Type :=
  { device_message : json; valid_device_ids : json }.

(** [InvalidDeviceId.__init__(self, message, ids)]:
    [if ids:]
    [    message += 'Your valid device IDs are:\n* %s' % '\n* '.join(ids)]
    [else:]
    [    message += 'It looks like your account does not have any ']
    [    'valid device IDs.']
    [super(InvalidDeviceId, self).__init__(message)]
    [self.valid_device_ids = ids]
    The second literal of the [else] branch is a statement of its own and
    adds nothing to the message. *)
Definition InvalidDeviceId_init (message ids : json) : result InvalidDeviceId :=
  match
    if truthy ids
    then
      match str_join bullet ids with
      | Return joined =>
          iadd_str message ("Your valid device IDs are:" +:+ bullet +:+ joined)
      | Raise e => Raise e
      end
    else iadd_str message "It looks like your account does not have any "
  with
  | Return message' =>
      Return {| device_message := message'; valid_device_ids := ids |}
  | Raise e => Raise e
  end.

(** * Properties *)

(** ** The success check *)

(** On a dict, [check_success] depends on the ['success'] item alone. *)
Lemma check_success_dict (cls : wc_call) (d : gmap string json) :
  check_success cls (JObj d) =
  match d !! "success" with
  | Some v =>
      if truthy v then Return tt
      else Raise (CallFailure failure_message (class_name cls))
  | None => Return tt
  end.
Proof.
  unfold check_success, contains_success, get_success.
  destruct (d !! "success") as [v|] eqn:Hd.
  - rewrite bool_decide_eq_true_2 by eauto.
    now destruct (truthy v).
  - rewrite bool_decide_eq_false_2; [reflexivity|].
    intros [v Hv]. discriminate Hv.
Qed.

(** The values Python takes as false are [None], [False], [0], the empty
    string, the empty list and the empty dict. *)
Lemma truthy_false_iff (v : json) :
  truthy v = false <->
  v = JNull \/ v = JBool false \/ v = JInt 0 \/ v = JStr "" \/
  v = JArr [] \/ v = JObj ∅.
Proof.
  split.
  - destruct v as [|[]|z|s|l|d]; simpl; intros Hv; try discriminate; auto.
    + apply negb_false_iff, Z.eqb_eq in Hv. subst. auto.
    + destruct s; [auto | discriminate].
    + destruct l; [auto 6 | discriminate].
    + apply negb_false_iff, Nat.eqb_eq, map_size_empty_iff in Hv.
      subst. auto 7.
  - intros [->|[->|[->|[->|[->| ->]]]]]; reflexivity.
Qed.

(** A list response that does not hold the string ['success'] passes the
    check: this is how the literal response of [ReportBadSongMatch] gets
    through. *)
Lemma check_success_expected_response (cls : wc_call) :
  check_success cls expected_response = Return tt.
Proof. reflexivity. Qed.

(** More generally, a list passes unless one of its elements is the string
    ['success']; such a list is then indexed by a string, a [TypeError]. *)
Lemma check_success_list (cls : wc_call) (l : list json) :
  check_success cls (JArr l) =
  if existsb (fun x => py_eq (JStr "success") x) l
  then Raise TypeError else Return tt.
Proof.
  unfold check_success, contains_success, get_success.
  now destruct (existsb _ l).
Qed.

(** A response that is not a container cannot be searched: the check ends
    in a [TypeError]. *)
Lemma check_success_scalar (cls : wc_call) :
  check_success cls JNull = Raise TypeError /\
  (forall b, check_success cls (JBool b) = Raise TypeError) /\
  (forall z, check_success cls (JInt z) = Raise TypeError).
Proof. repeat split. Qed.

(** C2, as the claim has it, fails on a decoded value that is no
    container: [None] (the JSON text [null]) has no ['success'] key, and
    the check does not pass it but ends in a [TypeError], because
    ['success' in None] cannot be evaluated. *)
Lemma check_success_null_counterexample :
  json_get "success" JNull = None /\
  check_success AddPlaylist JNull = Raise TypeError.
Proof. split; reflexivity. Qed.

(** C2 (amended): for every call class, [check_success] on a decoded value
    whose ['success'] key maps to [False] raises a [CallFailure] whose
    [callname] is the name of that class.  On a decoded value with no
    ['success'] key it raises nothing exactly when the value is a
    container in which ['success'] does not occur: a dict, a list none of
    whose elements is the string ['success'] (such as the [[0], []] of
    [ReportBadSongMatch]), or a string that does not contain it. *)
Theorem check_success_false_or_absent (cls : wc_call) (res : json) :
  (json_get "success" res = Some (JBool false) ->
   check_success cls res =
   Raise (CallFailure failure_message (class_name cls))) /\
  (json_get "success" res = None ->
   (check_success cls res = Return tt <->
    (exists d, res = JObj d) \/
    (exists l, res = JArr l /\
               existsb (fun x => py_eq (JStr "success") x) l = false) \/
    (exists s, res = JStr s /\ String.index 0 "success" s = None))).
Proof.
  split.
  - destruct res as [|b|z|s|l|d]; cbn [json_get]; try discriminate.
    intros Hd. now rewrite check_success_dict, Hd.
  - destruct res as [|b|z|s|l|d]; cbn [json_get].
    + intros _. split; [discriminate|].
      intros [[d [=]]|[(l & [=] & _)|(s & [=] & _)]].
    + intros _. split; [discriminate|].
      intros [[d [=]]|[(l & [=] & _)|(s & [=] & _)]].
    + intros _. split; [discriminate|].
      intros [[d [=]]|[(l & [=] & _)|(s & [=] & _)]].
    + intros _. unfold check_success, contains_success, get_success.
      destruct (String.index 0 "success" s) as [n|] eqn:Hs.
      * split; [discriminate|].
        intros [[d [=]]|[(l & [=] & _)|(s' & [= <-] & Hs')]]. congruence.
      * split; [eauto 6 | reflexivity].
    + intros _. rewrite check_success_list.
      destruct (existsb _ l) eqn:Hl.
      * split; [discriminate|].
        intros [[d [=]]|[(l' & [= <-] & Hl')|(s & [=] & _)]]. congruence.
      * split; [eauto 6 | reflexivity].
    + intros Hd. rewrite check_success_dict, Hd.
      split; [eauto | reflexivity].
Qed.

Lemma check_success_false_or_absent_witness :
  check_success DeletePlaylist (JObj {[ "success" := JBool false ]}) =
  Raise (CallFailure failure_message "DeletePlaylist") /\
  check_success DeletePlaylist (JObj {[ "deleteId" := JStr "p1" ]}) =
  Return tt /\
  check_success ReportBadSongMatch (JArr [JArr [JInt 0]; JArr []]) =
  Return tt.
Proof.
  split; [|split].
  - apply (proj1 (check_success_false_or_absent DeletePlaylist
                    (JObj {[ "success" := JBool false ]}))).
    reflexivity.
  - refine (proj2 (proj2 (check_success_false_or_absent DeletePlaylist
                            (JObj {[ "deleteId" := JStr "p1" ]})) _) _);
      [reflexivity|].
    left. eexists. reflexivity.
  - refine (proj2 (proj2 (check_success_false_or_absent ReportBadSongMatch
                            (JArr [JArr [JInt 0]; JArr []])) _) _);
      [reflexivity|].
    right. left. eexists. split; reflexivity.
Defined.

(** C9: [check_success] raises a [CallFailure] whenever the ['success'] key
    of the decoded dict maps to a value Python takes as false ([False], but
    also [0], the empty string or [None]), and raises nothing when it maps
    to a value Python takes as true. *)
Theorem check_success_truthiness (cls : wc_call) (d : gmap string json)
    (v : json) :
  d !! "success" = Some v ->
  (truthy v = false ->
   check_success cls (JObj d) =
   Raise (CallFailure failure_message (class_name cls))) /\
  (truthy v = true -> check_success cls (JObj d) = Return tt).
Proof.
  intros Hd. rewrite check_success_dict, Hd.
  split; intros ->; reflexivity.
Qed.

Lemma check_success_truthiness_witness :
  (check_success AddPlaylist (JObj {[ "success" := JInt 0 ]}) =
   Raise (CallFailure failure_message "AddPlaylist") /\
   check_success AddPlaylist (JObj {[ "success" := JStr "" ]}) =
   Raise (CallFailure failure_message "AddPlaylist") /\
   check_success AddPlaylist (JObj {[ "success" := JNull ]}) =
   Raise (CallFailure failure_message "AddPlaylist")) /\
  check_success AddPlaylist (JObj {[ "success" := JInt 1 ]}) = Return tt.
Proof.
  split; [split; [|split]|].
  - refine (proj1 (check_success_truthiness AddPlaylist
                     {[ "success" := JInt 0 ]} (JInt 0) _) _); reflexivity.
  - refine (proj1 (check_success_truthiness AddPlaylist
                     {[ "success" := JStr "" ]} (JStr "") _) _); reflexivity.
  - refine (proj1 (check_success_truthiness AddPlaylist
                     {[ "success" := JNull ]} (JNull) _) _); reflexivity.
  - refine (proj2 (check_success_truthiness AddPlaylist
                     {[ "success" := JInt 1 ]} (JInt 1) _) _); reflexivity.
Defined.

(** ** The request builders *)

(** The text that a payload carries. *)
Lemma json_payload_text `{!JsonEncoder} (req : json) :
  json_get "json" (json_payload req) = Some (JStr (json_dumps req)).
Proof. reflexivity. Qed.

(** C4: for every playlist id and every pair of moved id lists,
    [ChangePlaylistOrder.dynamic_data] with both anchors omitted builds the
    same request body as with both anchors given as the empty string, and
    the dict that body serialises has [afterEntryId] and [beforeEntryId]
    both equal to the empty string. *)
Theorem ChangePlaylistOrder_omitted_anchors `{!JsonEncoder}
    (playlist_id song_ids_moving entry_ids_moving : json) :
  ChangePlaylistOrder_dynamic_data playlist_id song_ids_moving
    entry_ids_moving None None =
  ChangePlaylistOrder_dynamic_data playlist_id song_ids_moving
    entry_ids_moving (Some (JStr "")) (Some (JStr "")) /\
  exists req,
    ChangePlaylistOrder_dynamic_data playlist_id song_ids_moving
      entry_ids_moving None None = json_payload req /\
    json_get "afterEntryId" req = Some (JStr "") /\
    json_get "beforeEntryId" req = Some (JStr "") /\
    json_get "playlistId" req = Some playlist_id /\
    json_get "movedSongIds" req = Some song_ids_moving /\
    json_get "movedEntryIds" req = Some entry_ids_moving.
Proof.
  split; [reflexivity|].
  exists (ChangePlaylistOrder_request playlist_id song_ids_moving
            entry_ids_moving (JStr "") (JStr "")).
  split; [reflexivity|].
  unfold ChangePlaylistOrder_request, json_get.
  repeat split; by simplify_map_eq.
Qed.

(** Passing Python's [None] for an anchor is the same as omitting it. *)
Lemma ChangePlaylistOrder_explicit_None `{!JsonEncoder}
    (playlist_id song_ids_moving entry_ids_moving : json) :
  ChangePlaylistOrder_dynamic_data playlist_id song_ids_moving
    entry_ids_moving (Some JNull) (Some JNull) =
  ChangePlaylistOrder_dynamic_data playlist_id song_ids_moving
    entry_ids_moving None None.
Proof. reflexivity. Qed.

(** The first-page request of [GetLibrarySongs] under Python's encoder. *)
Example GetLibrarySongs_first_page_text :
  json_get "json" (GetLibrarySongs_dynamic_data None) = Some (JStr "{}").
Proof. reflexivity. Qed.

(** C5, as the claim has it, fails for the empty token: the body built is
    the first-page body, which (under Python's encoder) is not the
    serialisation of a dict with a [continuationToken] item. *)
Lemma GetLibrarySongs_empty_token_counterexample :
  GetLibrarySongs_dynamic_data (Some (JStr "")) = json_payload (JObj ∅) /\
  json_payload (JObj ∅) <>
  json_payload (JObj {[ "continuationToken" := JStr "" ]}).
Proof.
  split; [reflexivity|].
  intros Heq. apply (f_equal (json_get "json")) in Heq.
  vm_compute in Heq. discriminate Heq.
Qed.

(** C5 (amended): [GetLibrarySongs.dynamic_data] with the continuation token
    omitted builds the serialisation of the empty dict, and with a token [T]
    that Python takes as true (a non-empty string) it builds the
    serialisation of [{"continuationToken": T}]. *)
Theorem GetLibrarySongs_dynamic_data_token `{!JsonEncoder} (T : json) :
  truthy T = true ->
  GetLibrarySongs_dynamic_data None = json_payload (JObj ∅) /\
  GetLibrarySongs_dynamic_data (Some T) =
  json_payload (JObj {[ "continuationToken" := T ]}).
Proof.
  intros HT. split; [reflexivity|].
  unfold GetLibrarySongs_dynamic_data. simpl. now rewrite HT.
Qed.

Lemma GetLibrarySongs_dynamic_data_token_witness :
  truthy (JStr "abc") = true /\
  GetLibrarySongs_dynamic_data None = json_payload (JObj ∅) /\
  GetLibrarySongs_dynamic_data (Some (JStr "abc")) =
  json_payload (JObj {[ "continuationToken" := JStr "abc" ]}).
Proof.
  split; [reflexivity|].
  apply (GetLibrarySongs_dynamic_data_token (JStr "abc")). reflexivity.
Defined.

(** C10: [GetLibrarySongs.dynamic_data] given the empty string, or any
    other token Python takes as false, builds what it builds for an omitted
    token: the first-page body, the serialisation of the empty dict, which
    has no [continuationToken] item. *)
Theorem GetLibrarySongs_falsy_token `{!JsonEncoder} (T : json) :
  truthy T = false ->
  GetLibrarySongs_dynamic_data (Some T) = GetLibrarySongs_dynamic_data None /\
  GetLibrarySongs_dynamic_data (Some T) = json_payload (JObj ∅) /\
  json_get "continuationToken" (JObj ∅) = None.
Proof.
  intros HT. unfold GetLibrarySongs_dynamic_data. simpl.
  rewrite HT. repeat split.
Qed.

Lemma GetLibrarySongs_falsy_token_witness :
  truthy (JStr "") = false /\
  GetLibrarySongs_dynamic_data (Some (JStr "")) =
  GetLibrarySongs_dynamic_data None /\
  GetLibrarySongs_dynamic_data (Some (JStr "")) = json_payload (JObj ∅) /\
  json_get "continuationToken" (JObj ∅) = None.
Proof.
  split; [reflexivity|].
  apply (GetLibrarySongs_falsy_token (JStr "")). reflexivity.
Defined.

(** Each builder in closed form: the body is the encoder applied to a dict
    made of the arguments, and of nothing else. *)
Lemma AddPlaylist_dynamic_data_body `{!JsonEncoder} (title : json) :
  AddPlaylist_dynamic_data title =
  JObj {[ "json" := JStr (json_dumps (JObj {[ "title" := title ]})) ]}.
Proof. reflexivity. Qed.

Lemma AddToPlaylist_dynamic_data_list `{!JsonEncoder}
    (playlist_id : json) (song_ids : list json) :
  AddToPlaylist_dynamic_data playlist_id (JArr song_ids) =
  Return
    (json_payload
       (JObj {[ "playlistId" := playlist_id;
                "songRefs" :=
                  JArr ((fun sid => JObj {[ "id" := sid; "type" := JInt 1 ]})
                          <$> song_ids) ]})).
Proof. reflexivity. Qed.

(** Every concrete class of the module has its invocations. *)
Lemma invoked_class_covers (cls : wc_call) :
  cls = WcCall \/ exists i, invoked_class i = cls.
Proof.
  destruct cls; auto; right.
  - now exists (InvAddPlaylist JNull).
  - now exists (InvAddToPlaylist JNull JNull).
  - now exists (InvChangePlaylistName JNull JNull).
  - now exists (InvChangePlaylistOrder JNull JNull JNull None None).
  - now exists (InvDeletePlaylist JNull).
  - now exists (InvDeleteSongs JNull None None).
  - now exists (InvGetLibrarySongs None).
  - now exists (InvReportBadSongMatch JNull).
Qed.

(** ** The literal response of [ReportBadSongMatch] *)

(** What compares equal to the integer [0], among the values modelled
    here: [0] itself and [False]. *)
Lemma py_eq_zero (x : json) :
  py_eq x (JInt 0) = true <-> x = JInt 0 \/ x = JBool false.
Proof.
  split.
  - destruct x as [|[]|z|s|l|d]; simpl; intros Hx; try discriminate; auto.
    apply Z.eqb_eq in Hx. subst. auto.
  - intros [->| ->]; reflexivity.
Qed.

(** What compares equal to the empty list: the empty list alone. *)
Lemma py_eq_empty_list (x : json) :
  py_eq x (JArr []) = true <-> x = JArr [].
Proof.
  split.
  - destruct x as [|b|z|s|[|y l]|d]; simpl; intros Hx;
      try discriminate; reflexivity.
  - intros ->. reflexivity.
Qed.

(** What compares equal to [[0]]. *)
Lemma py_eq_singleton_zero (x : json) :
  py_eq x (JArr [JInt 0]) = true <->
  x = JArr [JInt 0] \/ x = JArr [JBool false].
Proof.
  split.
  - destruct x as [|b|z|s|[|y [|y' l]]|d]; try discriminate.
    + intros Hx. change (py_eq y (JInt 0) && true = true) in Hx.
      rewrite andb_true_r in Hx. apply py_eq_zero in Hx as [->| ->]; auto.
    + intros Hx.
      change (py_eq y (JInt 0) && false = true) in Hx.
      rewrite andb_false_r in Hx. discriminate.
  - intros [->| ->]; reflexivity.
Qed.

(** The values that compare equal to the expected response, among the
    values modelled here: the literal and the same list with [False] in
    the place of [0]. *)
Lemma py_eq_expected_response (res : json) :
  py_eq res expected_response = true <->
  res = JArr [JArr [JInt 0]; JArr []] \/
  res = JArr [JArr [JBool false]; JArr []].
Proof.
  unfold expected_response. split.
  - destruct res as [|b|z|s|[|x [|y [|y' l]]]|d]; try discriminate.
    + intros Hx.
      change (py_eq x (JArr [JInt 0]) && false = true) in Hx.
      rewrite andb_false_r in Hx. discriminate.
    + intros Hx.
      change (py_eq x (JArr [JInt 0]) && (py_eq y (JArr []) && true) = true)
        in Hx.
      rewrite andb_true_r in Hx. apply andb_true_iff in Hx as [Hx Hy].
      apply py_eq_empty_list in Hy as ->.
      apply py_eq_singleton_zero in Hx as [->| ->]; auto.
    + intros Hx.
      change (py_eq x (JArr [JInt 0]) && (py_eq y (JArr []) && false) = true)
        in Hx.
      rewrite andb_false_r, andb_false_r in Hx. discriminate.
  - intros [->| ->]; reflexivity.
Qed.

(** C3, as the claim has it, fails for [[False], []]: it is not the
    expected literal, and [validate] accepts it, because [False == 0]. *)
Lemma ReportBadSongMatch_validate_counterexample :
  ReportBadSongMatch_validate (JArr [JArr [JBool false]; JArr []]) =
  Return JNull /\
  JArr [JArr [JBool false]; JArr []] <> expected_response.
Proof.
  split; [reflexivity|].
  unfold expected_response. intros Heq. discriminate Heq.
Qed.

(** What compares equal to the expected response: a list of two lists,
    the first holding one value that compares equal to [0], the second
    empty. *)
Lemma py_eq_expected_response_shape (res : json) :
  py_eq res expected_response = true <->
  exists x, res = JArr [JArr [x]; JArr []] /\ py_eq x (JInt 0) = true.
Proof.
  unfold expected_response. split.
  - destruct res as [|b|z|s|[|fst [|snd [|y l]]]|d]; try discriminate.
    + intros Hx.
      change (py_eq fst (JArr [JInt 0]) && false = true) in Hx.
      rewrite andb_false_r in Hx. discriminate.
    + intros Hx.
      change (py_eq fst (JArr [JInt 0]) && (py_eq snd (JArr []) && true)
              = true) in Hx.
      rewrite andb_true_r in Hx. apply andb_true_iff in Hx as [Hfst Hsnd].
      apply py_eq_empty_list in Hsnd as ->.
      destruct fst as [|b|z|s|[|x [|x' l]]|d]; try discriminate.
      * exists x. split; [reflexivity|].
        change (py_eq x (JInt 0) && true = true) in Hfst.
        now rewrite andb_true_r in Hfst.
      * change (py_eq x (JInt 0) && false = true) in Hfst.
        rewrite andb_false_r in Hfst. discriminate.
    + intros Hx.
      change (py_eq fst (JArr [JInt 0]) && (py_eq snd (JArr []) && false)
              = true) in Hx.
      rewrite andb_false_r, andb_false_r in Hx. discriminate.
  - intros (x & -> & Hx).
    change (py_eq x (JInt 0) && true && (true && true) = true).
    now rewrite Hx.
Qed.

(** C3 (amended): [ReportBadSongMatch.validate] succeeds exactly when its
    argument compares equal ([==]) to the expected literal [[0], []]: when
    it is a list of two lists, the first holding a single value that
    compares equal to [0] and the second empty.  This holds for [[0], []]
    and also for [[False], []].  For every other value, such as
    [[0], [1]], it raises a [ValidationException] whose message quotes the
    expected literal. *)
Theorem ReportBadSongMatch_validate_literal (res : json) :
  (ReportBadSongMatch_validate res = Return JNull <->
   exists x, res = JArr [JArr [x]; JArr []] /\ py_eq x (JInt 0) = true) /\
  (ReportBadSongMatch_validate res = Return JNull \/
   ReportBadSongMatch_validate res =
   Raise (ValidationException "response != [[0], []]")) /\
  ReportBadSongMatch_validate (JArr [JArr [JInt 0]; JArr []]) =
  Return JNull /\
  ReportBadSongMatch_validate (JArr [JArr [JBool false]; JArr []]) =
  Return JNull /\
  ReportBadSongMatch_validate (JArr [JArr [JInt 0]; JArr [JInt 1]]) =
  Raise (ValidationException "response != [[0], []]").
Proof.
  rewrite <- py_eq_expected_response_shape.
  unfold ReportBadSongMatch_validate.
  destruct (py_eq res expected_response); cbn [negb].
  - split; [split; reflexivity|]. split; [now left|]. repeat split.
  - split; [split; discriminate|]. split; [now right|]. repeat split.
Qed.

(** ** Schema validation *)

(** Induction on a schema, with the hypothesis available for the schema of
    every declared property. *)
Lemma schema_ind_nested (P : schema -> Prop) :
  P SString -> P SBoolean -> P SInteger ->
  (forall items, P items -> P (SArray items)) ->
  (forall properties additionalProperties,
     Forall (fun pr : string * (bool * schema) => P pr.2.2) properties ->
     P (SObject properties additionalProperties)) ->
  forall s, P s.
Proof.
  intros Hstr Hbool Hint Harr Hobj.
  fix IH 1. intros [| | |items|properties additionalProperties].
  - exact Hstr.
  - exact Hbool.
  - exact Hint.
  - apply Harr, IH.
  - apply Hobj.
    induction properties as [|[k [required s']] properties IHps];
      constructor; [apply IH | exact IHps].
Qed.

Lemma first_failure_None {A} (f : A -> option failure) (l : list A) :
  first_failure f l = None <-> Forall (fun x => f x = None) l.
Proof.
  induction l as [|x l IHl]; simpl.
  - split; [constructor | reflexivity].
  - destruct (f x) eqn:Hfx.
    + split; [discriminate|]. intros Hall.
      apply Forall_cons in Hall as [Hx _]. congruence.
    + rewrite IHl. split; [now constructor|].
      intros Hall. now apply Forall_cons in Hall as [_ Hl].
Qed.

(** The keys that [map_to_list] enumerates are the keys of the dict. *)
Lemma elem_of_keys (d : gmap string json) (k : string) :
  k ∈ (map_to_list d).*1 <-> is_Some (d !! k).
Proof.
  rewrite list_elem_of_fmap. split.
  - intros [[k' v] [-> Hkv]]. apply elem_of_map_to_list in Hkv. eauto.
  - intros [v Hv]. exists (k, v). split; [reflexivity|].
    now apply elem_of_map_to_list.
Qed.

(** A conforming value has no mismatch, at whatever path it is checked. *)
Lemma check_conforms (s : schema) :
  forall (v : json) (p : list string), conforms s v -> check p s v = None.
Proof.
  induction s as [| | |items IHitems|properties additionalProperties IHps]
    using schema_ind_nested; intros v p Hc; inversion Hc; subst;
    try reflexivity.
  - (* array *)
    cbn [check]. apply first_failure_None.
    apply Forall_forall. intros [i x] Hix.
    apply elem_of_lookup_imap in Hix as (i' & x' & Heq & Hx).
    injection Heq as -> ->. cbn [fst snd].
    apply IHitems.
    eapply Forall_forall; [eassumption|].
    eapply list_elem_of_lookup_2; eassumption.
  - (* object *)
    cbn [check].
    match goal with
    | |- match ?e with _ => _ end = None =>
        assert (e = None) as ->
    end.
    { apply first_failure_None.
      match goal with
      | H : Forall _ properties |- _ => rename H into Hprops
      end.
      clear -IHps Hprops.
      induction properties as [|[k [required s']] properties IH].
      - constructor.
      - apply Forall_cons in IHps as [IHs' IHps].
        apply Forall_cons in Hprops as [[Hpresent Habsent] Hprops].
        constructor; [|now apply IH].
        cbn [fst snd] in *.
        destruct (d !! k) as [v'|] eqn:Hk.
        + apply IHs'. now apply Hpresent.
        + now rewrite (Habsent eq_refl). }
    destruct additionalProperties; [reflexivity|].
    apply first_failure_None, Forall_forall.
    intros k Hk. apply elem_of_keys in Hk.
    rewrite bool_decide_eq_true_2; [reflexivity|].
    match goal with
    | H : false = false -> _ |- _ => now apply H
    end.
Qed.

(** Conversely, a value in which the checker finds no mismatch conforms:
    the checker accepts the conforming values and no others. *)
Lemma check_None_conforms (s : schema) :
  forall (v : json) (p : list string), check p s v = None -> conforms s v.
Proof.
  induction s as [| | |items IHitems|properties additionalProperties IHps]
    using schema_ind_nested; intros v p Hcheck;
    destruct v as [|b|z|str|l|d]; try discriminate Hcheck;
    try constructor.
  - (* array *)
    cbn [check] in Hcheck. apply first_failure_None in Hcheck.
    rewrite Forall_forall in Hcheck.
    apply Forall_forall. intros x Hx.
    apply list_elem_of_lookup in Hx as [i Hi].
    apply (IHitems x (p ++ [pretty i])%list).
    apply (Hcheck (i, x)). apply elem_of_lookup_imap. eauto.
  - (* object: the declared properties *)
    cbn [check] in Hcheck.
    destruct (first_failure _ properties) as [f|] eqn:Hdeclared;
      [discriminate Hcheck|].
    apply first_failure_None in Hdeclared. clear Hcheck.
    induction properties as [|[k [required s']] properties IH];
      [constructor|].
    apply Forall_cons in IHps as [IHs' IHps].
    apply Forall_cons in Hdeclared as [Hk Hdeclared].
    constructor; [|now apply IH].
    cbn [fst snd] in *. split.
    + intros v' Hv'. rewrite Hv' in Hk. now apply IHs' in Hk.
    + intros Hnone. rewrite Hnone in Hk. now destruct required.
  - (* object: the closure *)
    intros -> k Hk. cbn [check] in Hcheck.
    destruct (first_failure _ properties) as [f|];
      [discriminate Hcheck|].
    apply first_failure_None in Hcheck. rewrite Forall_forall in Hcheck.
    specialize (Hcheck k (proj2 (elem_of_keys d k) Hk)).
    cbn beta in Hcheck.
    destruct (bool_decide (k ∈ properties.*1)) eqn:Hin;
      [|discriminate Hcheck].
    now apply bool_decide_eq_true in Hin.
Qed.

(** C1: for every schema [S] and every value [V] conforming to [S],
    [WcCall.validate] of a class whose [_res_schema] is [S] succeeds on [V]
    and returns [V] itself. *)
Theorem WcCall_validate_conforming (S : schema) (V : json) :
  conforms S V -> WcCall_validate S V = Return V.
Proof.
  intros Hc. unfold WcCall_validate, validictory_validate.
  now rewrite (check_conforms S V [] Hc).
Qed.

Lemma WcCall_validate_conforming_witness :
  WcCall_validate AddPlaylist_res_schema
    (JObj {[ "id" := JStr "p1"; "title" := JStr "mix";
             "success" := JBool true ]}) =
  Return (JObj {[ "id" := JStr "p1"; "title" := JStr "mix";
                  "success" := JBool true ]}).
Proof.
  apply (WcCall_validate_conforming AddPlaylist_res_schema).
  apply conforms_object.
  - repeat apply Forall_cons_2; try apply Forall_nil_2; cbn [fst snd];
      (split;
       [ intros v Hv; vm_compute in Hv; injection Hv as <-; constructor
       | intros Hn; vm_compute in Hn; discriminate Hn ]).
  - intros _ k [v Hk].
    apply lookup_insert_Some in Hk as [[<- _]|[_ Hk]]; [set_solver|].
    apply lookup_insert_Some in Hk as [[<- _]|[_ Hk]]; [set_solver|].
    apply lookup_singleton_Some in Hk as [<- _]. set_solver.
Defined.

(** C6: for every schema that disallows additional properties and every
    dict holding a key that the schema does not declare, [WcCall.validate]
    raises a [ValidationException]: it does not succeed. *)
Theorem WcCall_validate_closed
    (properties : list (string * (bool * schema))) (d : gmap string json)
    (k : string) :
  is_Some (d !! k) -> k ∉ properties.*1 ->
  exists message,
    WcCall_validate (SObject properties false) (JObj d) =
    Raise (ValidationException message).
Proof.
  intros Hk Hundeclared.
  unfold WcCall_validate, validictory_validate. cbn [check].
  destruct (first_failure _ properties) as [f|] eqn:Hdeclared;
    [eexists; reflexivity|].
  destruct (first_failure _ (map_to_list d).*1) as [f|] eqn:Hkeys;
    [eexists; reflexivity|].
  exfalso. apply first_failure_None in Hkeys.
  rewrite Forall_forall in Hkeys.
  specialize (Hkeys k (proj2 (elem_of_keys d k) Hk)). cbn beta in Hkeys.
  rewrite bool_decide_eq_false_2 in Hkeys by assumption.
  discriminate Hkeys.
Qed.

Lemma WcCall_validate_closed_witness :
  exists message,
    WcCall_validate AddPlaylist_res_schema
      (JObj {[ "id" := JStr "p1"; "title" := JStr "mix";
               "success" := JBool true; "owner" := JStr "me" ]}) =
    Raise (ValidationException message).
Proof.
  apply (WcCall_validate_closed _ _ "owner").
  - vm_compute. eauto.
  - vm_compute. intros Hin.
    repeat (apply elem_of_cons in Hin as [Hin|Hin]; [discriminate Hin|]).
    now apply elem_of_nil in Hin.
Defined.

(** What [AddPlaylist] reports for the dict of the previous lemma. *)
Example AddPlaylist_undeclared_key :
  WcCall_validate AddPlaylist_res_schema
    (JObj {[ "id" := JStr "p1"; "title" := JStr "mix";
             "success" := JBool true; "owner" := JStr "me" ]}) =
  Raise (ValidationException "<obj>.owner is not a declared property").
Proof. reflexivity. Qed.

(** A nested object without the flag stays open: [AddToPlaylist] accepts
    an undeclared key inside an element of [songIds]. *)
Example AddToPlaylist_open_items :
  let res :=
    JObj {[ "playlistId" := JStr "p1";
            "songIds" :=
              JArr [JObj {[ "songId" := JStr "s1";
                            "playlistEntryId" := JStr "e1";
                            "index" := JInt 0 ]}] ]} in
  WcCall_validate AddToPlaylist_res_schema res = Return res.
Proof. reflexivity. Qed.

(** The first mismatch, with its path: the second song reference of an
    [AddToPlaylist] response has a number where a string is declared. *)
Example AddToPlaylist_first_mismatch :
  WcCall_validate AddToPlaylist_res_schema
    (JObj {[ "playlistId" := JStr "p1";
             "songIds" :=
               JArr [JObj {[ "songId" := JStr "s1";
                             "playlistEntryId" := JStr "e1" ]};
                     JObj {[ "songId" := JInt 7;
                             "playlistEntryId" := JStr "e2" ]}] ]}) =
  Raise (ValidationException
           "<obj>.songIds.1.songId is of type integer, not of type string").
Proof. reflexivity. Qed.

(** ** The log filter *)

Lemma fresh_loc_unused (h : heap) : h !! fresh (dom h) = None.
Proof. apply not_elem_of_dom, is_fresh. Qed.

Lemma alloc_preserves (o : obj) : preserves_heap (alloc o).
Proof.
  intros h. unfold alloc. cbn [snd].
  apply insert_subseteq, fresh_loc_unused.
Qed.

(** The model of [utils.truncate] builds a new list and leaves the one it
    is given as it is. *)
Lemma utils_truncate_preserves (x : val) (max_els : nat) :
  preserves_heap (utils_truncate x max_els).
Proof.
  intros h. destruct x as [| | | |l]; try reflexivity.
  unfold utils_truncate.
  destruct (h !! l) as [[items|elems]|]; try reflexivity.
  destruct (max_els <? length elems)%nat; [|reflexivity].
  apply alloc_preserves.
Qed.

(** What [filter_response] does on a dict with a ['playlist'] item, step by
    step: the copy goes to a new location, and the assignment goes into the
    copy. *)
Lemma filter_response_run (truncate : val -> nat -> M val) (h : heap)
    (l : loc) (items : gmap string val) (playlist : val) :
  h !! l = Some (ODict items) ->
  items !! "playlist" = Some playlist ->
  (forall h0 : heap, h0 ⊆ (truncate playlist 2%nat h0).2) ->
  let filtered := fresh (dom h) in
  let after_truncate := truncate playlist 2%nat (<[filtered := ODict items]> h) in
  filter_response truncate (VRef l) h =
  match after_truncate.1 with
  | Return truncated =>
      (Return (VRef filtered),
       <[filtered := ODict (<["playlist" := truncated]> items)]>
         after_truncate.2)
  | Raise e => (Raise e, after_truncate.2)
  end.
Proof.
  intros Hl Hplaylist Htruncate filtered after_truncate.
  assert (h !! filtered = None) as Hfresh by apply fresh_loc_unused.
  assert (filtered <> l) as Hne by congruence.
  unfold filter_response, bind, copy_copy, alloc. rewrite Hl.
  fold filtered. unfold getitem.
  rewrite lookup_insert_ne, Hl, Hplaylist by exact Hne.
  fold after_truncate.
  pose proof (Htruncate (<[filtered := ODict items]> h)) as Hsub.
  fold after_truncate in Hsub.
  destruct after_truncate as [[truncated|e] h2]; cbn [fst snd] in *;
    [|reflexivity].
  unfold setitem.
  assert (h2 !! filtered = Some (ODict items)) as ->.
  { eapply lookup_weaken; [|exact Hsub]. apply lookup_insert_eq. }
  reflexivity.
Qed.

(** C7: given that [utils.truncate] leaves the objects it is given as they
    are, [GetLibrarySongs.filter_response] on a response [msg] with a
    ['playlist'] item leaves every object of the heap as it was: [msg] still
    holds the same items, its ['playlist'] item among them, and the list
    that item refers to is the full list it was before.  The filtered value
    is another object than [msg]. *)
Theorem filter_response_leaves_msg (truncate : val -> nat -> M val)
    (h : heap) (l : loc) (items : gmap string val) (playlist : val) :
  (forall x n, preserves_heap (truncate x n)) ->
  h !! l = Some (ODict items) ->
  items !! "playlist" = Some playlist ->
  let run := filter_response truncate (VRef l) h in
  h ⊆ run.2 /\
  run.2 !! l = Some (ODict items) /\
  (forall lp o, playlist = VRef lp -> h !! lp = Some o ->
                run.2 !! lp = Some o) /\
  run.1 <> Return (VRef l).
Proof.
  intros Htruncate Hl Hplaylist run.
  assert (h !! fresh (dom h) = None) as Hfresh by apply fresh_loc_unused.
  assert (h ⊆ run.2) as Hsub.
  { subst run.
    rewrite (filter_response_run truncate h l items playlist Hl Hplaylist)
      by (intros h0; apply Htruncate).
    pose proof (Htruncate playlist 2%nat
                  (<[fresh (dom h) := ODict items]> h)) as Hsub.
    destruct (truncate playlist 2%nat _) as [[truncated|e] h2];
      cbn [fst snd] in *.
    - apply insert_subseteq_r; [exact Hfresh|].
      etrans; [|exact Hsub]. now apply insert_subseteq.
    - etrans; [|exact Hsub]. now apply insert_subseteq. }
  split; [exact Hsub|].
  split; [eapply lookup_weaken; eassumption|].
  split; [intros lp o _ Hlp; eapply lookup_weaken; eassumption|].
  subst run.
  rewrite (filter_response_run truncate h l items playlist Hl Hplaylist)
    by (intros h0; apply Htruncate).
  destruct (truncate playlist 2%nat _) as [[truncated|e] h2];
    cbn [fst snd]; [|discriminate].
  intros Heq. injection Heq as Heq. congruence.
Qed.

Lemma filter_response_leaves_msg_witness :
  let run := filter_response utils_truncate (VRef 1%positive) sample_heap in
  sample_heap ⊆ run.2 /\
  run.2 !! 1%positive =
  Some (ODict {[ "playlist" := VRef 2%positive;
                 "playlistId" := VStr "all" ]}) /\
  (forall lp o, VRef 2%positive = VRef lp -> sample_heap !! lp = Some o ->
                run.2 !! lp = Some o) /\
  run.1 <> Return (VRef 1%positive).
Proof.
  apply (filter_response_leaves_msg utils_truncate sample_heap 1%positive
           {[ "playlist" := VRef 2%positive; "playlistId" := VStr "all" ]}
           (VRef 2%positive)).
  - exact utils_truncate_preserves.
  - reflexivity.
  - reflexivity.
Defined.

(** The filter at work on the sample response: the value it returns is a
    new dict whose ['playlist'] is a new list of two songs, while the
    response keeps its list of three. *)
Example filter_response_sample :
  let run := filter_response utils_truncate (VRef 1%positive) sample_heap in
  run.1 = Return (VRef 3%positive) /\
  run.2 !! 3%positive =
  Some (ODict {[ "playlist" := VRef 4%positive;
                 "playlistId" := VStr "all" ]}) /\
  run.2 !! 4%positive = Some (OList [VStr "song a"; VStr "song b"]) /\
  run.2 !! 2%positive =
  Some (OList [VStr "song a"; VStr "song b"; VStr "song c"]).
Proof. vm_compute. repeat split. Qed.

(** * Further properties of the module *)

(** ** What the success check can raise *)

(** X1: [check_success] raises only two things.  It raises the
    [CallFailure] of its class exactly on a dict whose ['success'] item is
    taken as false, and a [TypeError] exactly on a response that is no
    container, on a string in which ['success'] occurs and on a list that
    holds the string ['success'].  In particular it never raises a
    [KeyError]. *)
Theorem check_success_raises (cls : wc_call) (res : json) (e : exn) :
  check_success cls res = Raise e <->
  (e = CallFailure failure_message (class_name cls) /\
   exists d v, res = JObj d /\ d !! "success" = Some v /\ truthy v = false) \/
  (e = TypeError /\
   (res = JNull \/ (exists b, res = JBool b) \/ (exists z, res = JInt z) \/
    (exists s n, res = JStr s /\ String.index 0 "success" s = Some n) \/
    (exists l, res = JArr l /\
               existsb (fun x => py_eq (JStr "success") x) l = true))).
Proof.
  split.
  - destruct res as [|b|z|s|l|d].
    + intros [= <-]. right. auto.
    + intros [= <-]. right. eauto 6.
    + intros [= <-]. right. eauto 6.
    + unfold check_success, contains_success, get_success.
      destruct (String.index 0 "success" s) as [n|] eqn:Hs;
        [|discriminate].
      intros [= <-]. right. split; [reflexivity|]. eauto 10.
    + rewrite check_success_list.
      destruct (existsb _ l) eqn:Hl; [|discriminate].
      intros [= <-]. right. split; [reflexivity|]. eauto 10.
    + rewrite check_success_dict.
      destruct (d !! "success") as [v|] eqn:Hd; [|discriminate].
      destruct (truthy v) eqn:Hv; [discriminate|].
      intros [= <-]. left. eauto 10.
  - intros [[-> (d & v & -> & Hd & Hv)]
           |[-> [->|[[b ->]|[[z ->]|[(s & n & -> & Hs)|(l & -> & Hl)]]]]]];
      try reflexivity.
    + now rewrite check_success_dict, Hd, Hv.
    + unfold check_success, contains_success, get_success. now rewrite Hs.
    + now rewrite check_success_list, Hl.
Qed.

(** X2: a response that [ReportBadSongMatch.validate] accepts passes
    [check_success], for every class: the two gates of the literal response
    never disagree. *)
Theorem validate_accepted_passes_check_success (cls : wc_call) (res : json) :
  ReportBadSongMatch_validate res = Return JNull ->
  check_success cls res = Return tt.
Proof.
  unfold ReportBadSongMatch_validate.
  destruct (py_eq res expected_response) eqn:Heq; [|discriminate].
  intros _. apply py_eq_expected_response in Heq as [->| ->]; reflexivity.
Qed.

Lemma validate_accepted_passes_check_success_witness :
  check_success ReportBadSongMatch (JArr [JArr [JInt 0]; JArr []]) =
  Return tt.
Proof.
  apply (validate_accepted_passes_check_success ReportBadSongMatch
           (JArr [JArr [JInt 0]; JArr []])).
  reflexivity.
Defined.

(** No class name holds a colon, so the name ends where the first [": "]
    of the text begins. *)
Lemma CallFailure_str_class (c1 c2 : wc_call) (m1 m2 : string) :
  class_name c1 +:+ ": " +:+ m1 = class_name c2 +:+ ": " +:+ m2 ->
  c1 = c2 /\ m1 = m2.
Proof.
  destruct c1, c2; cbn; intros Heq;
    solve [ discriminate Heq
          | split; [reflexivity | now simplify_eq] ].
Qed.

(** X3: the text of a [CallFailure], as [CallFailure.__str__] gives it for
    the failure [check_success] raises, tells the class and the message:
    two failures with the same text come from the same class and carry the
    same message. *)
Theorem CallFailure_str_identifies (c1 c2 : wc_call) (m1 m2 : string) :
  CallFailure_str m1 (class_name c1) = CallFailure_str m2 (class_name c2) ->
  c1 = c2 /\ m1 = m2.
Proof. unfold CallFailure_str. apply CallFailure_str_class. Qed.

Lemma CallFailure_str_identifies_witness :
  DeleteSongs = DeleteSongs /\ failure_message = failure_message.
Proof.
  apply (CallFailure_str_identifies DeleteSongs DeleteSongs
           failure_message failure_message).
  reflexivity.
Defined.

(** ** The log filter on other responses *)

(** X4: on a response dict without a ['playlist'] item, such as the
    [{'success': False}] of a failed call, [filter_response] raises
    [KeyError('playlist')], whatever [utils.truncate] is; the response and
    all other objects stay as they are. *)
Theorem filter_response_missing_playlist (truncate : val -> nat -> M val)
    (h : heap) (l : loc) (items : gmap string val) :
  h !! l = Some (ODict items) ->
  items !! "playlist" = None ->
  let run := filter_response truncate (VRef l) h in
  run.1 = Raise (KeyError "playlist") /\ h ⊆ run.2.
Proof.
  intros Hl Hplaylist run. subst run.
  assert (h !! fresh (dom h) = None) as Hfresh by apply fresh_loc_unused.
  assert (fresh (dom h) <> l) as Hne by congruence.
  unfold filter_response, bind, copy_copy, alloc. rewrite Hl.
  unfold getitem. cbn [fst snd].
  rewrite lookup_insert_ne, Hl, Hplaylist by exact Hne.
  cbn [fst snd]. split; [reflexivity|]. now apply insert_subseteq.
Qed.

Lemma filter_response_missing_playlist_witness :
  let h : heap := {[ 1%positive := ODict {[ "success" := VBool false ]} ]} in
  let run := filter_response utils_truncate (VRef 1%positive) h in
  run.1 = Raise (KeyError "playlist") /\ h ⊆ run.2.
Proof.
  apply (filter_response_missing_playlist utils_truncate
           {[ 1%positive := ODict {[ "success" := VBool false ]} ]}
           1%positive {[ "success" := VBool false ]});
    reflexivity.
Defined.

(** X5: on a response that is not a dict, a list object or a value that
    is no container, [filter_response] raises a [TypeError], whatever
    [utils.truncate] is, and every object stays as it is. *)
Theorem filter_response_not_a_dict (truncate : val -> nat -> M val)
    (h : heap) (msg : val) :
  (forall l, msg = VRef l -> exists elems, h !! l = Some (OList elems)) ->
  let run := filter_response truncate msg h in
  run.1 = Raise TypeError /\ h ⊆ run.2.
Proof.
  intros Hmsg run. subst run.
  destruct msg as [| | | |l]; try (split; reflexivity).
  destruct (Hmsg l eq_refl) as [elems Hl].
  assert (h !! fresh (dom h) = None) as Hfresh by apply fresh_loc_unused.
  assert (fresh (dom h) <> l) as Hne by congruence.
  unfold filter_response, bind, copy_copy, alloc. rewrite Hl.
  unfold getitem. rewrite lookup_insert_ne, Hl by exact Hne.
  cbn [fst snd]. split; [reflexivity|]. now apply insert_subseteq.
Qed.

Lemma filter_response_not_a_dict_witness :
  let h : heap := {[ 1%positive := OList [VInt 0] ]} in
  let run := filter_response utils_truncate (VRef 1%positive) h in
  run.1 = Raise TypeError /\ h ⊆ run.2.
Proof.
  apply (filter_response_not_a_dict utils_truncate
           {[ 1%positive := OList [VInt 0] ]} (VRef 1%positive)).
  intros l Hl. injection Hl as <-. exists [VInt 0]. reflexivity.
Defined.

(** X6: when [filter_response] returns, what it returns is a new dict with
    the keys of the response: under ['playlist'] it holds what
    [utils.truncate] returned, and under every other key the very value
    the response holds there, shared and not copied. *)
Theorem filter_response_shallow (truncate : val -> nat -> M val)
    (h : heap) (l : loc) (items : gmap string val) (playlist : val)
    (filtered : val) :
  (forall x n, preserves_heap (truncate x n)) ->
  h !! l = Some (ODict items) ->
  items !! "playlist" = Some playlist ->
  let run := filter_response truncate (VRef l) h in
  run.1 = Return filtered ->
  exists (lf : loc) (copied : gmap string val) (truncated : val),
    filtered = VRef lf /\ h !! lf = None /\
    run.2 !! lf = Some (ODict copied) /\
    dom copied = dom items /\
    copied !! "playlist" = Some truncated /\
    (truncate playlist 2%nat (<[lf := ODict items]> h)).1 =
    Return truncated /\
    (forall k, k <> "playlist" -> copied !! k = items !! k).
Proof.
  intros Htruncate Hl Hplaylist run. subst run.
  rewrite (filter_response_run truncate h l items playlist Hl Hplaylist)
    by (intros h0; apply Htruncate).
  destruct (truncate playlist 2%nat (<[fresh (dom h) := ODict items]> h))
    as [[truncated|e] h2] eqn:Hrun; cbn [fst snd]; [|discriminate].
  intros [= <-].
  exists (fresh (dom h)), (<["playlist" := truncated]> items), truncated.
  split; [reflexivity|].
  split; [apply fresh_loc_unused|].
  split; [apply lookup_insert_eq|].
  split.
  { rewrite dom_insert_L.
    assert ("playlist" ∈ dom items) as Hin by (apply elem_of_dom; eauto).
    apply set_eq. intros k. rewrite elem_of_union, elem_of_singleton.
    split; [intros [->|Hk]; assumption | auto]. }
  split; [apply lookup_insert_eq|].
  split; [now rewrite Hrun|].
  intros k Hk. now apply lookup_insert_ne.
Qed.

Lemma filter_response_shallow_witness :
  let run := filter_response utils_truncate (VRef 1%positive) sample_heap in
  exists (lf : loc) (copied : gmap string val) (truncated : val),
    VRef 3%positive = VRef lf /\ sample_heap !! lf = None /\
    run.2 !! lf = Some (ODict copied) /\
    dom copied =
    dom ({[ "playlist" := VRef 2%positive; "playlistId" := VStr "all" ]}
           : gmap string val) /\
    copied !! "playlist" = Some truncated /\
    (utils_truncate (VRef 2%positive) 2%nat
       (<[lf := ODict {[ "playlist" := VRef 2%positive;
                         "playlistId" := VStr "all" ]}]> sample_heap)).1 =
    Return truncated /\
    (forall k, k <> "playlist" ->
               copied !! k =
               ({[ "playlist" := VRef 2%positive; "playlistId" := VStr "all" ]}
                  : gmap string val) !! k).
Proof.
  apply (filter_response_shallow utils_truncate sample_heap 1%positive
           {[ "playlist" := VRef 2%positive; "playlistId" := VStr "all" ]}
           (VRef 2%positive) (VRef 3%positive)).
  - exact utils_truncate_preserves.
  - reflexivity.
  - reflexivity.
  - reflexivity.
Defined.

(** ** The request builders as a family *)

(** X7: the only builder that can fail is [AddToPlaylist.dynamic_data], and
    only with a [TypeError], exactly when [song_ids] cannot be iterated:
    when it is [None], a boolean or a number.  A string or a dict given for
    [song_ids] does not fail. *)
Theorem dynamic_data_raises `{!JsonEncoder} (i : invocation) (e : exn) :
  dynamic_data i = Raise e <->
  e = TypeError /\
  exists playlist_id song_ids,
    i = InvAddToPlaylist playlist_id song_ids /\
    (song_ids = JNull \/ (exists b, song_ids = JBool b) \/
     (exists z, song_ids = JInt z)).
Proof.
  split.
  - destruct i as [title|playlist_id song_ids|playlist_id new_name
                  |playlist_id sids eids after before|playlist_id
                  |song_ids playlist_id entry_ids|cont_token|song_ids];
      cbn [dynamic_data]; try discriminate.
    unfold AddToPlaylist_dynamic_data.
    destruct song_ids as [|b|z|s|l|d]; cbn [iterate]; try discriminate;
      intros [= <-]; (split; [reflexivity|]);
      exists playlist_id; eexists; (split; [reflexivity|]); eauto.
  - intros [-> (playlist_id & song_ids & -> & [->|[[b ->]|[z ->]]])];
      reflexivity.
Qed.

(** X8: what a builder returns has one of two shapes.  Every class but
    [ReportBadSongMatch] returns a dict with the single key ['json'], which
    holds a text produced by [json.dumps]; [ReportBadSongMatch] returns such
    a text itself, not wrapped in a dict. *)
Theorem dynamic_data_shape `{!JsonEncoder} (i : invocation) (body : json) :
  dynamic_data i = Return body ->
  exists req,
    match invoked_class i with
    | ReportBadSongMatch => body = JStr (json_dumps req)
    | _ => body = JObj {[ "json" := JStr (json_dumps req) ]}
    end.
Proof.
  destruct i as [title|playlist_id song_ids|playlist_id new_name
                |playlist_id sids eids after before|playlist_id
                |song_ids playlist_id entry_ids|cont_token|song_ids];
    cbn [dynamic_data invoked_class];
    try (intros [= <-]; eexists; reflexivity).
  unfold AddToPlaylist_dynamic_data.
  destruct (iterate song_ids) as [items|e]; [|discriminate].
  intros [= <-]. eexists. reflexivity.
Qed.

Lemma dynamic_data_shape_witness :
  exists req,
    DeleteSongs_dynamic_data (JArr [JStr "s1"]) None None =
    JObj {[ "json" := JStr (json_dumps req) ]}.
Proof.
  apply (dynamic_data_shape (InvDeleteSongs (JArr [JStr "s1"]) None None)).
  reflexivity.
Defined.

(** X9: [ChangePlaylistOrder.dynamic_data] decides each anchor on its own.
    An anchor that is omitted or given as [None] is sent as the empty
    string; an anchor given as anything else, an empty string or a zero
    included, is sent as it was given.  So the dict it serialises always
    has [afterEntryId] and [beforeEntryId], neither of them [None], next
    to the playlist id and the two lists of moved ids as given. *)
Theorem ChangePlaylistOrder_anchors `{!JsonEncoder}
    (playlist_id song_ids_moving entry_ids_moving : json)
    (after_entry_id before_entry_id : option json) :
  exists after before,
    ChangePlaylistOrder_dynamic_data playlist_id song_ids_moving
      entry_ids_moving after_entry_id before_entry_id =
    json_payload
      (JObj {[ "playlistId" := playlist_id;
               "movedSongIds" := song_ids_moving;
               "movedEntryIds" := entry_ids_moving;
               "afterEntryId" := after;
               "beforeEntryId" := before ]}) /\
    (after_entry_id = None \/ after_entry_id = Some JNull ->
     after = JStr "") /\
    (forall v, after_entry_id = Some v -> v <> JNull -> after = v) /\
    (before_entry_id = None \/ before_entry_id = Some JNull ->
     before = JStr "") /\
    (forall v, before_entry_id = Some v -> v <> JNull -> before = v) /\
    after <> JNull /\ before <> JNull.
Proof.
  set (anchor := fun a : option json =>
                   if is_None (default JNull a) then JStr ""
                   else default JNull a).
  assert (forall a, a = None \/ a = Some JNull -> anchor a = JStr "")
    as Hboundary.
  { intros a [->| ->]; reflexivity. }
  assert (forall a v, a = Some v -> v <> JNull -> anchor a = v) as Hgiven.
  { intros a v -> Hv. destruct v; try reflexivity. now destruct Hv. }
  assert (forall a, anchor a <> JNull) as Hnot_None.
  { intros [[]|]; discriminate. }
  exists (anchor after_entry_id), (anchor before_entry_id).
  split; [reflexivity|]. auto 10.
Qed.

(** One anchor given and the other omitted: the songs go after entry
    ["e7"], with the end of the playlist as the other boundary. *)
Example ChangePlaylistOrder_one_anchor `{!JsonEncoder} :
  ChangePlaylistOrder_dynamic_data (JStr "p1") (JArr [JStr "s1"])
    (JArr [JStr "e1"]) (Some (JStr "e7")) None =
  json_payload
    (JObj {[ "playlistId" := JStr "p1";
             "movedSongIds" := JArr [JStr "s1"];
             "movedEntryIds" := JArr [JStr "e1"];
             "afterEntryId" := JStr "e7";
             "beforeEntryId" := JStr "" ]}).
Proof. reflexivity. Qed.

(** The text Python's encoder writes for a dict of one item. *)
Lemma py_json_dumps_singleton (k : string) (v : json) :
  py_json_dumps (JObj {[ k := v ]}) =
  "{" +:+ (quote_string k +:+ ": " +:+ py_json_dumps v) +:+ "}".
Proof.
  cbn [py_json_dumps]. rewrite map_fold_singleton. reflexivity.
Qed.

(** X10: with Python's encoder, the body [GetLibrarySongs.dynamic_data]
    builds for a token taken as true is never the first-page body: a
    request for a later page cannot be read as a request to start over. *)
Theorem GetLibrarySongs_next_page_differs (T : json) :
  truthy T = true ->
  GetLibrarySongs_dynamic_data (Some T) <> GetLibrarySongs_dynamic_data None.
Proof.
  intros HT Heq.
  unfold GetLibrarySongs_dynamic_data in Heq.
  change (default JNull (Some T)) with T in Heq.
  change (default JNull None) with JNull in Heq.
  rewrite HT in Heq. cbn [truthy negb] in Heq.
  apply (f_equal (json_get "json")) in Heq.
  unfold json_payload, json_get in Heq.
  rewrite !lookup_singleton_eq in Heq.
  unfold json_dumps, py_encoder in Heq.
  rewrite py_json_dumps_singleton in Heq.
  discriminate Heq.
Qed.

Lemma GetLibrarySongs_next_page_differs_witness :
  truthy (JStr "abc") = true /\
  GetLibrarySongs_dynamic_data (Some (JStr "abc")) <>
  GetLibrarySongs_dynamic_data None.
Proof.
  split; [reflexivity|].
  apply (GetLibrarySongs_next_page_differs (JStr "abc")). reflexivity.
Defined.

(** ** The exceptions that build their message *)

(** X11: a [NotSubscribed] built without arguments, or with a message
    string first, always carries the help link: the first of its [args] is
    a string that ends with the link, and the arguments after the first are
    kept as given. *)
Theorem NotSubscribed_init_link (args : list json) :
  (forall a0, head args = Some a0 -> exists m, a0 = JStr m) ->
  exists m,
    NotSubscribed_init args =
    Return (JStr (m +:+ " (https://goo.gl/v1wVHT)") :: tail args).
Proof.
  intros Hfirst. destruct args as [|a0 rest].
  - exists "Subscription required.". reflexivity.
  - destruct (Hfirst a0 eq_refl) as [m ->]. exists m. reflexivity.
Qed.

Lemma NotSubscribed_init_link_witness :
  exists m,
    NotSubscribed_init [JStr "All access needed."; JInt 402] =
    Return (JStr (m +:+ " (https://goo.gl/v1wVHT)")
              :: tail [JStr "All access needed."; JInt 402]).
Proof.
  apply (NotSubscribed_init_link [JStr "All access needed."; JInt 402]).
  intros a0 [= <-]. eauto.
Defined.

(** X12: building a [NotSubscribed] fails exactly when its first argument
    is [None], a boolean, a number or a dict, to which a string cannot be
    added; the failure is a [TypeError].  With no argument at all, or a
    string or a list first, it succeeds. *)
Theorem NotSubscribed_init_raises (args : list json) (e : exn) :
  NotSubscribed_init args = Raise e <->
  e = TypeError /\
  exists a0 rest,
    args = a0 :: rest /\
    (a0 = JNull \/ (exists b, a0 = JBool b) \/ (exists z, a0 = JInt z) \/
     (exists d, a0 = JObj d)).
Proof.
  split.
  - destruct args as [|[|b|z|s|l|d] rest]; cbn; try discriminate;
      intros [= <-]; (split; [reflexivity|]);
      eexists; eexists; (split; [reflexivity|]); eauto 6.
  - intros [-> (a0 & rest & -> & [->|[[b ->]|[[z ->]|[d ->]]]])];
      reflexivity.
Qed.

Lemma String_append_empty (s : string) : s +:+ "" = s.
Proof.
  induction s as [|c s IHs]; [reflexivity|].
  change (String c (s +:+ "") = String c s). now rewrite IHs.
Qed.

Lemma strings_of_strings (ss : list string) :
  strings_of (JStr <$> ss) = Some ss.
Proof.
  induction ss as [|s ss IHss]; [reflexivity|].
  change (strings_of (JStr <$> s :: ss))
    with (match strings_of (JStr <$> ss) with
          | Some ss' => Some (s :: ss')
          | None => None
          end).
  now rewrite IHss.
Qed.

(** Joining with the bullet, after a first bullet, puts every string on a
    bullet line of its own. *)
Lemma bullet_lines (ids : list string) :
  ids <> [] ->
  bullet +:+ String.concat bullet ids =
  foldr (fun id acc => bullet +:+ id +:+ acc) "" ids.
Proof.
  induction ids as [|id [|id' ids] IHids]; intros Hne.
  - now destruct Hne.
  - change (bullet +:+ id = bullet +:+ id +:+ "").
    now rewrite String_append_empty.
  - change (String.concat bullet (id :: id' :: ids))
      with (id +:+ bullet +:+ String.concat bullet (id' :: ids)).
    change (foldr (fun id acc => bullet +:+ id +:+ acc) "" (id :: id' :: ids))
      with (bullet +:+ id +:+
            foldr (fun id acc => bullet +:+ id +:+ acc) "" (id' :: ids)).
    now rewrite IHids.
Qed.

(** X13: for a message string and a non-empty list of id strings,
    [InvalidDeviceId] extends the message by the heading and then, for
    each id in the order of the list, a line feed, ["* "] and the id: no id
    is lost or merged with another.  [valid_device_ids] is the list as
    given. *)
Theorem InvalidDeviceId_init_lists_ids (message : string)
    (ids : list string) :
  ids <> [] ->
  InvalidDeviceId_init (JStr message) (JArr (JStr <$> ids)) =
  Return
    {| device_message :=
         JStr (message +:+ "Your valid device IDs are:" +:+
               foldr (fun id acc => bullet +:+ id +:+ acc) "" ids);
       valid_device_ids := JArr (JStr <$> ids) |}.
Proof.
  intros Hne. unfold InvalidDeviceId_init, str_join.
  assert (truthy (JArr (JStr <$> ids)) = true) as ->.
  { destruct ids; [now destruct Hne | reflexivity]. }
  cbn [iterate]. rewrite strings_of_strings. cbn [iadd_str].
  now rewrite (bullet_lines ids Hne).
Qed.

Lemma InvalidDeviceId_init_lists_ids_witness :
  InvalidDeviceId_init (JStr "Bad device id. ")
    (JArr (JStr <$> ["3f2a"; "77c0"])) =
  Return
    {| device_message :=
         JStr ("Bad device id. " +:+ "Your valid device IDs are:" +:+
               foldr (fun id acc => bullet +:+ id +:+ acc) ""
                     ["3f2a"; "77c0"]);
       valid_device_ids := JArr (JStr <$> ["3f2a"; "77c0"]) |}.
Proof.
  apply (InvalidDeviceId_init_lists_ids "Bad device id. " ["3f2a"; "77c0"]).
  discriminate.
Defined.

(** X14: whenever an [InvalidDeviceId] is built from a message string, its
    message begins with the message given and [valid_device_ids] is the
    [ids] argument as given.  For [ids] taken as false ([None], an empty
    list) the text added is ['It looks like your account does not have any ']
    and ends there. *)
Theorem InvalidDeviceId_init_keeps (message : string) (ids : json)
    (r : InvalidDeviceId) :
  InvalidDeviceId_init (JStr message) ids = Return r ->
  valid_device_ids r = ids /\
  exists added,
    device_message r = JStr (message +:+ added) /\
    (truthy ids = false ->
     added = "It looks like your account does not have any ").
Proof.
  unfold InvalidDeviceId_init.
  destruct (truthy ids) eqn:Hids.
  - destruct (str_join bullet ids) as [joined|e]; [|discriminate].
    cbn [iadd_str]. intros [= <-]. cbn [valid_device_ids device_message].
    split; [reflexivity|]. eexists. split; [reflexivity|]. discriminate.
  - cbn [iadd_str]. intros [= <-]. cbn [valid_device_ids device_message].
    split; [reflexivity|]. eexists. split; reflexivity.
Qed.

Lemma InvalidDeviceId_init_keeps_witness :
  valid_device_ids
    {| device_message :=
         JStr "Bad id. It looks like your account does not have any ";
       valid_device_ids := JArr [] |} = JArr [] /\
  exists added,
    device_message
      {| device_message :=
           JStr "Bad id. It looks like your account does not have any ";
         valid_device_ids := JArr [] |} = JStr ("Bad id. " +:+ added) /\
    (truthy (JArr []) = false ->
     added = "It looks like your account does not have any ").
Proof.
  apply (InvalidDeviceId_init_keeps "Bad id. " (JArr [])).
  reflexivity.
Defined.

Lemma strings_of_map {A} (f : A -> string) (l : list A) :
  strings_of ((fun x => JStr (f x)) <$> l) = Some (f <$> l).
Proof.
  induction l as [|x l IHl]; [reflexivity|].
  change (strings_of ((fun x => JStr (f x)) <$> x :: l))
    with (match strings_of ((fun x => JStr (f x)) <$> l) with
          | Some ss => Some (f x :: ss)
          | None => None
          end).
  now rewrite IHl.
Qed.

(** X15: building an [InvalidDeviceId] from a message string fails exactly
    when [ids] is taken as true and is not a collection of strings: when it
    is [True], a number other than zero, or a list that holds something
    that is not a string.  The failure is a [TypeError].  A string or a
    dict given for [ids] does not fail: its characters, or its keys, are
    listed as the ids. *)
Theorem InvalidDeviceId_init_raises (message : string) (ids : json)
    (e : exn) :
  InvalidDeviceId_init (JStr message) ids = Raise e <->
  e = TypeError /\
  (ids = JBool true \/ (exists z, ids = JInt z /\ z <> 0) \/
   (exists l, ids = JArr l /\ strings_of l = None)).
Proof.
  unfold InvalidDeviceId_init, str_join. split.
  - destruct ids as [|[]|z|s|l|d]; cbn [truthy iterate negb].
    + discriminate.
    + intros [= <-]. auto.
    + discriminate.
    + destruct (z =? 0) eqn:Hz; cbn [negb]; [discriminate|].
      intros [= <-]. apply Z.eqb_neq in Hz. eauto 6.
    + rewrite (strings_of_map (fun c => String c "")).
      destruct (negb _); discriminate.
    + destruct (strings_of l) as [ss|] eqn:Hl.
      * destruct (negb _); discriminate.
      * destruct l as [|x l]; [discriminate Hl|].
        cbn [length Nat.eqb negb]. intros [= <-]. eauto 6.
    + rewrite (strings_of_map (fun kv : string * json => kv.1)).
      destruct (negb _); discriminate.
  - intros [-> [->|[(z & -> & Hz)|(l & -> & Hl)]]].
    + reflexivity.
    + cbn [truthy iterate]. apply Z.eqb_neq in Hz. now rewrite Hz.
    + cbn [truthy iterate]. rewrite Hl.
      destruct l as [|x l]; [discriminate Hl | reflexivity].
Qed.
